(** * DigitalScope receiver (scripts/receive.py): a shallow embedding

    This development models the serial receiver of DigitalScope:
    - the line decoder [SerialIO.handle_line] and its three handlers
      [onLog], [onUnknown] and [onData];
    - the numpy calls [onData] relies on: [np.loadtxt(..., dtype=int)],
      [reshape((-1,2))] and [np.savetxt(..., fmt="%d", header=...)];
    - the module-level [Queue()] shared by the reader thread and [main];
    - the module-level flag [done], [connection_lost], [signal_handler]
      and the polling loop of [main].

    Effects are modelled by explicit state passing over a [state] record:
    the file system (path to file text), the queue, the global [done]
    and a trace of observable events (prints, file writes, queue puts,
    renders).  A Python exception is the [Raise] outcome carrying the
    state reached when it was raised. *)

From Stdlib Require Import Ascii String ZArith Lia Bool List.
From Stdlib Require Import Decimal DecimalN.
From stdpp Require Import base relations gmap strings.
Import ListNotations.

Open Scope string_scope.
Open Scope Z_scope.

(** stdpp makes [String.append] opaque to [simpl]; the proofs below compute
    with it. *)
Arguments String.append : simpl nomatch.

(* ------------------------------------------------------------------ *)
(** ** Characters and Python string splitting *)

Definition code (c : ascii) : nat := nat_of_ascii c.

(** Python's [str.isspace] on ASCII characters: 9..13, 28..31 and 32. *)
Definition is_space (c : ascii) : bool :=
  let n := code c in
  ((9 <=? n) && (n <=? 13))%nat || ((28 <=? n) && (n <=? 32))%nat.

Definition is_digit (c : ascii) : bool :=
  let n := code c in ((48 <=? n) && (n <=? 57))%nat.

Fixpoint string_forall (p : ascii -> bool) (s : string) : bool :=
  match s with
  | EmptyString => true
  | String c s' => p c && string_forall p s'
  end.

Definition char1 (c : ascii) : string := String c EmptyString.

Definition nl : ascii := ascii_of_nat 10.

(** [line.split(" ", 1)]: at most one split, on the first single space. *)
Fixpoint split_space1 (s : string) : list string :=
  match s with
  | EmptyString => [EmptyString]
  | String c s' =>
      if Ascii.eqb c " "%char then [EmptyString; s']
      else match split_space1 s' with
           | [] => [char1 c]
           | t :: rest => (String c t) :: rest
           end
  end.

(** [str.split()] with no separator: maximal runs of non-whitespace.
    [cur] is the token being read. *)
Fixpoint ws_go (s : string) (cur : string) : list string :=
  match s with
  | EmptyString => match cur with EmptyString => [] | _ => [cur] end
  | String c s' =>
      if is_space c then
        match cur with
        | EmptyString => ws_go s' EmptyString
        | _ => cur :: ws_go s' EmptyString
        end
      else ws_go s' (cur ++ char1 c)
  end.

Definition split_ws (s : string) : list string := ws_go s EmptyString.

(** Splitting a text into its lines at ['\n'] (all pieces are kept). *)
Fixpoint lines_go (s : string) (cur : string) : list string :=
  match s with
  | EmptyString => [cur]
  | String c s' =>
      if Ascii.eqb c nl then cur :: lines_go s' EmptyString
      else lines_go s' (cur ++ char1 c)
  end.

Definition lines (s : string) : list string := lines_go s EmptyString.

(** numpy's default [comments='#']: the text from the first '#' on is dropped. *)
Fixpoint strip_comment (s : string) : string :=
  match s with
  | EmptyString => EmptyString
  | String c s' => if Ascii.eqb c "#"%char then EmptyString
                   else String c (strip_comment s')
  end.

(** [", ".join]-style concatenation with a separator. *)
Fixpoint join (sep : string) (l : list string) : string :=
  match l with
  | [] => EmptyString
  | [x] => x
  | x :: l' => x ++ sep ++ join sep l'
  end.

(** [''.join(l)]. *)
Definition cat (l : list string) : string := fold_right String.append EmptyString l.

(* ------------------------------------------------------------------ *)
(** ** Decimal integers *)

Fixpoint uint_to_string (d : Decimal.uint) : string :=
  match d with
  | Decimal.Nil => EmptyString
  | Decimal.D0 d => String "0" (uint_to_string d)
  | Decimal.D1 d => String "1" (uint_to_string d)
  | Decimal.D2 d => String "2" (uint_to_string d)
  | Decimal.D3 d => String "3" (uint_to_string d)
  | Decimal.D4 d => String "4" (uint_to_string d)
  | Decimal.D5 d => String "5" (uint_to_string d)
  | Decimal.D6 d => String "6" (uint_to_string d)
  | Decimal.D7 d => String "7" (uint_to_string d)
  | Decimal.D8 d => String "8" (uint_to_string d)
  | Decimal.D9 d => String "9" (uint_to_string d)
  end.

Definition push_digit (n : nat) (u : Decimal.uint) : option Decimal.uint :=
  match n with
  | 0 => Some (Decimal.D0 u) | 1 => Some (Decimal.D1 u)
  | 2 => Some (Decimal.D2 u) | 3 => Some (Decimal.D3 u)
  | 4 => Some (Decimal.D4 u) | 5 => Some (Decimal.D5 u)
  | 6 => Some (Decimal.D6 u) | 7 => Some (Decimal.D7 u)
  | 8 => Some (Decimal.D8 u) | 9 => Some (Decimal.D9 u)
  | _ => None
  end%nat.

(** A run of decimal digits (possibly empty). *)
Fixpoint string_to_uint (s : string) : option Decimal.uint :=
  match s with
  | EmptyString => Some Decimal.Nil
  | String c s' =>
      if is_digit c then
        match string_to_uint s' with
        | Some u => push_digit (code c - 48)%nat u
        | None => None
        end
      else None
  end.

Definition INT64_MIN : Z := - 2 ^ 63.
Definition INT64_MAX : Z := 2 ^ 63 - 1.

Definition in_int64 (z : Z) : bool := (INT64_MIN <=? z) && (z <=? INT64_MAX).

Definition digits_value (s : string) : option Z :=
  match s with
  | EmptyString => None
  | _ => match string_to_uint s with
         | Some u => Some (Z.of_N (N.of_uint u))
         | None => None
         end
  end.

(** numpy's conversion of one field to [int64] ([dtype=int]):
    an optional sign, at least one decimal digit, and the value in range;
    anything else raises [ValueError]. *)
Definition parse_int64 (tok : string) : option Z :=
  let v :=
    match tok with
    | String c rest =>
        if Ascii.eqb c "-"%char then option_map Z.opp (digits_value rest)
        else if Ascii.eqb c "+"%char then digits_value rest
        else digits_value tok
    | EmptyString => None
    end in
  match v with
  | Some z => if in_int64 z then Some z else None
  | None => None
  end.

(** ["%d" % z]. *)
Definition show_N (n : N) : string := uint_to_string (N.to_uint n).

Definition fmt_d (z : Z) : string :=
  if z <? 0 then "-" ++ show_N (Z.to_N (- z)) else show_N (Z.to_N z).

(* ------------------------------------------------------------------ *)
(** ** numpy: [loadtxt], [reshape((-1,2))] and [savetxt] *)

Fixpoint map_opt {A B} (f : A -> option B) (l : list A) : option (list B) :=
  match l with
  | [] => Some []
  | x :: l' =>
      match f x, map_opt f l' with
      | Some y, Some ys => Some (y :: ys)
      | _, _ => None
      end
  end.

Definition is_nil {A} (l : list A) : bool :=
  match l with [] => true | _ => false end.

(** The fields of each non-empty line of a text, after comment removal. *)
Definition rows_of (text : string) : list (list string) :=
  List.filter (fun r => negb (is_nil r))
         (map (fun l => split_ws (strip_comment l)) (lines text)).

(** [np.loadtxt(StringIO(text), dtype=int)], flattened in row-major order
    (the only use of the result is [reshape((-1,2))], which depends on the
    flat sequence alone).  [None] is the [ValueError] numpy raises on a
    field that is not an int64 or on rows of different lengths; a text with
    no data rows gives an empty array. *)
Definition loadtxt (text : string) : option (list Z) :=
  match rows_of text with
  | [] => Some []
  | (r0 :: _) as rows =>
      if forallb (fun r => Nat.eqb (length r) (length r0)) rows
      then map_opt parse_int64 (concat rows)
      else None
  end.

(** [arr.reshape((-1,2))]: [None] is the [ValueError] on an odd size. *)
Fixpoint reshape2 (xs : list Z) : option (list (Z * Z)) :=
  match xs with
  | [] => Some []
  | a :: b :: r => option_map (cons (a, b)) (reshape2 r)
  | [_] => None
  end.

Definition flatten2 (rows : list (Z * Z)) : list Z :=
  concat (map (fun '(a, b) => [a; b]) rows).

Definition HEADER : string := "Time(us) State(HIGH/LOW)".

(** The text [np.savetxt(path, arr, fmt="%d", header=HEADER)] writes for an
    [(n,2)] array: the header behind numpy's comment prefix ["# "], then one
    line per row, the fields separated by numpy's default delimiter [" "]. *)
Definition savetxt_text (arr : list (Z * Z)) : string :=
  "# " ++ HEADER ++ char1 nl ++
  cat
    (map (fun '(a, b) => fmt_d a ++ " " ++ fmt_d b ++ char1 nl) arr).

(* ------------------------------------------------------------------ *)
(** ** Python's [queue.Queue] *)

Record pyqueue (A : Type) := mkQueue { maxsize : Z; items : list A }.
Arguments mkQueue {A} _ _.
Arguments maxsize {A} _.
Arguments items {A} _.

(** [Queue()]: [maxsize=0]. *)
Definition Queue_new {A} : pyqueue A := mkQueue 0 [].

Inductive put_result (A : Type) :=
| PutOk (q : pyqueue A)
| PutBlocks.
Arguments PutOk {A} _.
Arguments PutBlocks {A}.

(** [q.put(x)] (block=True, no timeout): with [maxsize > 0] and a full
    queue the caller waits on [not_full]; otherwise [x] is appended. *)
Definition queue_put {A} (q : pyqueue A) (x : A) : put_result A :=
  if (0 <? maxsize q) && (maxsize q <=? Z.of_nat (length (items q)))
  then PutBlocks
  else PutOk (mkQueue (maxsize q) (items q ++ [x])).

(** [q.get(False)]: raises [Empty] ([None]) on an empty queue, otherwise
    pops the oldest item. *)
Definition queue_get_nowait {A} (q : pyqueue A) : option (A * pyqueue A) :=
  match items q with
  | [] => None
  | x :: rest => Some (x, mkQueue (maxsize q) rest)
  end.

(* ------------------------------------------------------------------ *)
(** ** Process state *)

(** The command-line arguments [onData] and [main] read. *)
Record config := mkConfig { out_dir : string; show_signal : bool }.

Definition capture := list (Z * Z).

Inductive event :=
| EvPrint (s : string)
| EvSave (path : string) (arr : capture)
| EvPut (arr : capture)
| EvRender (arr : capture).

Record state := mkState {
  files : gmap string string;
  q : pyqueue capture;
  trace : list event;
  done : bool
}.

Inductive outcome :=
| Normal (st : state)
| Raise (exc : string) (st : state)
| Blocked (st : state).

Definition emit (e : event) (st : state) : state :=
  mkState (files st) (q st) (trace st ++ [e]) (done st).

Definition print (s : string) (st : state) : state := emit (EvPrint s) st.

(** [os.path.join(a, b)]. *)
Definition path_join (a b : string) : string :=
  match b with
  | String "/"%char _ => b
  | _ =>
      match a with
      | EmptyString => b
      | _ => match String.get (String.length a - 1)%nat a with
             | Some "/"%char => a ++ b
             | _ => a ++ "/" ++ b
             end
      end
  end.

(* ------------------------------------------------------------------ *)
(** ** [SerialIO]: the line handlers *)

Section Handlers.

Variable cfg : config.

(** [onLog(msg)]. *)
Definition onLog (msg : string) (st : state) : outcome :=
  Normal (print ("ARDUINO " ++ msg) st).

(** [onUnknown(data)]: the handler receives the payload only. *)
Definition onUnknown (data : string) (st : state) : outcome :=
  Normal (print ("Unknown " ++ data) st).

(** [str(uuid.uuid4())[:8] + ".csv"]; the generated uuid text is an
    argument, since [uuid4] is random. *)
Definition capture_filename (uuid : string) : string :=
  String.substring 0 8 uuid ++ ".csv".

(** [np.savetxt(path, arr, ...)] replaces the file at [path]. *)
Definition save (path : string) (arr : capture) (st : state) : state :=
  mkState (<[path := savetxt_text arr]> (files st)) (q st)
          (trace st ++ [EvSave path arr]) (done st).

(** [onData(data)]: load, reshape, save, print, and put on the queue when
    [--show-signal] was given.  Nothing here catches an exception. *)
Definition onData (uuid : string) (data : string) (st : state) : outcome :=
  match loadtxt data with
  | None => Raise "ValueError" st
  | Some flat =>
      match reshape2 flat with
      | None => Raise "ValueError" st
      | Some arr =>
          let filename := capture_filename uuid in
          let st1 := save (path_join (out_dir cfg) filename) arr st in
          let st2 := print ("ARDUINO Data captured, saved to " ++ filename) st1 in
          if show_signal cfg then
            match queue_put (q st2) arr with
            | PutOk q' => Normal (mkState (files st2) q' (trace st2 ++ [EvPut arr])
                                          (done st2))
            | PutBlocks => Blocked st2
            end
          else Normal st2
      end
  end.

Inductive handler := HLog | HData | HUnknown.

(** [{"LOG": self.onLog, "DATA": self.onData}.get(tag, self.onUnknown)]. *)
Definition choice (tag : string) : handler :=
  if String.eqb tag "LOG" then HLog
  else if String.eqb tag "DATA" then HData
  else HUnknown.

Definition run_handler (h : handler) (uuid : string) (payload : string)
    (st : state) : outcome :=
  match h with
  | HLog => onLog payload st
  | HData => onData uuid payload st
  | HUnknown => onUnknown payload st
  end.

(** [handle_line(line)]; [uuid] is what [uuid4()] would return if the
    line reaches [onData]. *)
Definition handle_line (uuid : string) (line : string) (st : state) : outcome :=
  match split_space1 line with
  | [tag; payload] => run_handler (choice tag) uuid payload st
  | _ => Normal st
  end.

End Handlers.

(** [connection_lost(exc)].  The assignment [done = True] in its body has
    no [global] declaration, so Python binds a local variable of the
    method: the module-level [done] is not written. *)
Definition connection_lost (exc : option string) (st : state) : state :=
  let st1 := match exc with
             | Some e => print ("Failed " ++ e) st
             | None => st
             end in
  let st2 := print "Connection closed" st1 in
  let done_local := true in
  st2.

(** [signal_handler(signal, frame)]: [global done; done = True]. *)
Definition signal_handler (st : state) : state :=
  let st1 := print "Cleaning up..." st in
  mkState (files st1) (q st1) (trace st1) true.

(* ------------------------------------------------------------------ *)
(** ** The polling loop of [main] *)

(** Where the main thread is in [while not done: ...; time.sleep(0.1)]. *)
Inductive mpc := MCheck | MBody | MSleep | MExit.

(** One step of the main thread: the loop test, the body (a
    non-blocking [q.get(False)], rendering the item when [--show-signal]
    was given, [Empty] swallowed), and the end of [time.sleep(0.1)]. *)
Definition main_step (cfg : config) (pc : mpc) (st : state) : mpc * state :=
  match pc with
  | MCheck => if done st then (MExit, st) else (MBody, st)
  | MBody =>
      match queue_get_nowait (q st) with
      | None => (MSleep, st)
      | Some (arr, q') =>
          let st1 := mkState (files st) q' (trace st) (done st) in
          if show_signal cfg then (MSleep, emit (EvRender arr) st1)
          else (MSleep, st1)
      end
  | MSleep => (MCheck, st)
  | MExit => (MExit, st)
  end.

Fixpoint main_steps (cfg : config) (n : nat) (pc : mpc) (st : state) : mpc * state :=
  match n with
  | O => (pc, st)
  | S n' => let '(pc', st') := main_step cfg pc st in main_steps cfg n' pc' st'
  end.

(* ------------------------------------------------------------------ *)
(** ** The two threads *)

(** pyserial's [LineReader.data_received] hands every complete line of the
    received bytes to [handle_line] in order; it catches nothing, so an
    exception ends the loop and propagates.  Each line comes with the uuid
    [uuid4()] would produce for it. *)
Fixpoint data_received (cfg : config) (ls : list (string * string))
    (st : state) : outcome :=
  match ls with
  | [] => Normal st
  | (u, line) :: rest =>
      match handle_line cfg u line st with
      | Normal st' => data_received cfg rest st'
      | o => o
      end
  end.

(** The process: the main thread's position, whether pyserial's
    [ReaderThread] is still reading, and the shared state. *)
Record sys := mkSys { pc_of : mpc; reading : bool; sst : state }.

(** Interleaved steps of the process.  The reader thread handles one line
    at a time; as in pyserial's [ReaderThread.run], an exception from the
    protocol, an I/O error or [close()] ends the reader with a call of
    [connection_lost].  [SIGINT] runs [signal_handler] at any time. *)
Inductive sys_step (cfg : config) : sys -> sys -> Prop :=
| SysMain pc st pc' st' r :
    main_step cfg pc st = (pc', st') ->
    sys_step cfg (mkSys pc r st) (mkSys pc' r st')
| SysLine pc u line st st' :
    handle_line cfg u line st = Normal st' ->
    sys_step cfg (mkSys pc true st) (mkSys pc true st')
| SysLineRaise pc u line st e st' :
    handle_line cfg u line st = Raise e st' ->
    sys_step cfg (mkSys pc true st) (mkSys pc false (connection_lost (Some e) st'))
| SysLost pc exc st :
    sys_step cfg (mkSys pc true st) (mkSys pc false (connection_lost exc st))
| SysSigint pc r st :
    sys_step cfg (mkSys pc r st) (mkSys pc r (signal_handler st)).

Definition sys_steps (cfg : config) : relation sys := rtc (sys_step cfg).

(** Module initialisation: [q = Queue()], [done = False]; no file written
    yet; the main thread about to test the loop condition. *)
Definition init_state : state := mkState ∅ Queue_new [] false.
Definition init_sys : sys := mkSys MCheck true init_state.

(* ------------------------------------------------------------------ *)
(** ** The wire format of a DATA payload, and sequences of queue calls *)

(** The decoding [onData] performs before it writes anything:
    [np.loadtxt(StringIO(data), dtype=int).reshape((-1,2))]. *)
Definition decode_payload (data : string) : option capture :=
  match loadtxt data with
  | Some flat => reshape2 flat
  | None => None
  end.

(** A DATA payload as the wire protocol describes it: the integers in
    decimal, separated by single spaces. *)
Definition encode_payload (xs : list Z) : string := join " " (map fmt_d xs).

(** Successive [q.put(x)] calls; [None] if one of them would wait. *)
Fixpoint put_all {A} (qu : pyqueue A) (xs : list A) : option (pyqueue A) :=
  match xs with
  | [] => Some qu
  | x :: xs' =>
      match queue_put qu x with
      | PutOk qu' => put_all qu' xs'
      | PutBlocks => None
      end
  end.

(** [n] successive [q.get(False)] calls, stopping at [Empty]. *)
Fixpoint get_n {A} (n : nat) (qu : pyqueue A) : list A :=
  match n with
  | O => []
  | S n' =>
      match queue_get_nowait qu with
      | Some (x, qu') => x :: get_n n' qu'
      | None => []
      end
  end.

(* ------------------------------------------------------------------ *)
(** ** Character classes and row helpers used by the proofs *)

Definition no_space (c : ascii) : bool := negb (is_space c).
Definition no_sp1 (c : ascii) : bool := negb (Ascii.eqb c " "%char).
Definition no_nl (c : ascii) : bool := negb (Ascii.eqb c nl).
Definition no_hash (c : ascii) : bool := negb (Ascii.eqb c "#"%char).
Definition digit_or_minus (c : ascii) : bool := is_digit c || Ascii.eqb c "-"%char.

Definition plain_token (t : string) : Prop :=
  t <> EmptyString /\ string_forall no_space t = true.

Definition row_in_int64 (r : Z * Z) : bool := in_int64 (fst r) && in_int64 (snd r).

Definition row_line (r : Z * Z) : string := fmt_d (fst r) ++ " " ++ fmt_d (snd r).
Definition row_fields (r : Z * Z) : list string := [fmt_d (fst r); fmt_d (snd r)].

(** Every capture in the queue was saved, and its [EvSave] is followed by
    one printed line and then by its [EvPut] in the trace. *)
Definition queued_are_saved (st : state) : Prop :=
  forall x, In x (items (q st)) ->
  exists p m t1 t3, trace st = (t1 ++ EvSave p x :: EvPrint m :: EvPut x :: t3)%list.

(** Every file in the map is the [savetxt] text of an int64 capture that
    the trace records as saved at that path. *)
Definition files_valid (st : state) : Prop :=
  forall p text, files st !! p = Some text ->
  exists arr, text = savetxt_text arr /\ Forall (fun r => row_in_int64 r = true) arr /\
    In (EvSave p arr) (trace st).

(** The events of the display queue: a [q.put] or a rendered capture. *)
Definition queue_event (e : event) : bool :=
  match e with EvPut _ | EvRender _ => true | _ => false end.

(* ------------------------------------------------------------------ *)
(** ** Sanity checks on concrete inputs *)

Definition cfg_show : config := mkConfig "./" true.
Definition cfg_noshow : config := mkConfig "./" false.
Definition uuid0 : string := "1b4e28ba-2fa1-11d2-883f-0016d3cca427".

Example split_space1_ex1 : split_space1 "DATA 0 1" = ["DATA"; "0 1"].
Proof. reflexivity. Qed.
Example split_space1_ex2 : split_space1 "LOG" = ["LOG"].
Proof. reflexivity. Qed.
Example split_ws_ex : split_ws "  0 1	 100 " = ["0"; "1"; "100"].
Proof. vm_compute. reflexivity. Qed.
Example loadtxt_ex1 : loadtxt "0 1 100 0" = Some [0; 1; 100; 0].
Proof. vm_compute. reflexivity. Qed.
Example loadtxt_ex2 : loadtxt "-5 +7" = Some [-5; 7].
Proof. vm_compute. reflexivity. Qed.
Example loadtxt_ex3 : loadtxt "0 x" = None.
Proof. vm_compute. reflexivity. Qed.
Example loadtxt_ex4 : loadtxt "9223372036854775808" = None.
Proof. vm_compute. reflexivity. Qed.
Example fmt_d_ex : map fmt_d [0; -12; 305] = ["0"; "-12"; "305"].
Proof. vm_compute. reflexivity. Qed.
Example path_join_ex : path_join "./" "a.csv" = "./a.csv" /\ path_join "out" "a.csv" = "out/a.csv".
Proof. split; reflexivity. Qed.
Example savetxt_ex : savetxt_text [(0,1); (100,0)] =
  "# Time(us) State(HIGH/LOW)" ++ char1 nl ++ "0 1" ++ char1 nl ++ "100 0" ++ char1 nl.
Proof. vm_compute. reflexivity. Qed.

(* ------------------------------------------------------------------ *)
(** ** Lemmas on strings *)

Lemma app_nil_r_str (s : string) : s ++ EmptyString = s.
Proof. induction s; simpl; congruence. Qed.

Lemma app_assoc_str (a b c : string) : a ++ (b ++ c) = (a ++ b) ++ c.
Proof. induction a; simpl; congruence. Qed.

Lemma string_forall_app p (a b : string) :
  string_forall p (a ++ b) = string_forall p a && string_forall p b.
Proof. induction a; simpl; [reflexivity|]. rewrite IHa. apply andb_assoc. Qed.

Lemma string_forall_mono (p p' : ascii -> bool) (s : string) :
  (forall c, p c = true -> p' c = true) ->
  string_forall p s = true -> string_forall p' s = true.
Proof.
  intros Hpp. induction s; simpl; [reflexivity|].
  intros H. apply andb_prop in H as [H1 H2]. rewrite (Hpp _ H1). simpl. auto.
Qed.

Lemma ws_go_app (t s cur : string) :
  string_forall no_space t = true -> ws_go (t ++ s) cur = ws_go s (cur ++ t).
Proof.
  revert cur. induction t as [|c t IH]; intros cur H; simpl in *.
  - rewrite app_nil_r_str. reflexivity.
  - apply andb_prop in H as [H1 H2]. unfold no_space in H1.
    apply negb_true_iff in H1. rewrite H1, IH by exact H2.
    rewrite <- app_assoc_str. reflexivity.
Qed.

Lemma ws_go_join (toks : list string) :
  Forall plain_token toks -> ws_go (join " " toks) EmptyString = toks.
Proof.
  induction toks as [|x l IH]; intros H; [reflexivity|].
  inversion H as [|? ? [Hne Hx] Hl]; subst.
  destruct l as [|y l].
  - simpl join. rewrite <- (app_nil_r_str x), ws_go_app by exact Hx.
    simpl. rewrite app_nil_r_str. destruct x; [congruence|reflexivity].
  - change (join " " (x :: y :: l)) with (x ++ String " " (join " " (y :: l))).
    remember (join " " (y :: l)) as J eqn:HJ.
    rewrite ws_go_app by exact Hx. simpl.
    destruct x; [congruence|]. subst J. rewrite IH by exact Hl. reflexivity.
Qed.

Lemma split_ws_join (toks : list string) :
  Forall plain_token toks -> split_ws (join " " toks) = toks.
Proof. apply ws_go_join. Qed.

Lemma lines_go_app (t s cur : string) :
  string_forall no_nl t = true -> lines_go (t ++ s) cur = lines_go s (cur ++ t).
Proof.
  revert cur. induction t as [|c t IH]; intros cur H; simpl in *.
  - rewrite app_nil_r_str. reflexivity.
  - apply andb_prop in H as [H1 H2]. unfold no_nl in H1.
    apply negb_true_iff in H1. rewrite H1, IH by exact H2.
    rewrite <- app_assoc_str. reflexivity.
Qed.

Lemma lines_go_cat (ls : list string) :
  Forall (fun l => string_forall no_nl l = true) ls ->
  lines_go (cat (map (fun l => l ++ char1 nl) ls)) EmptyString = (ls ++ [EmptyString])%list.
Proof.
  induction ls as [|l ls IH]; intros H; [reflexivity|].
  inversion H; subst. simpl cat.
  rewrite <- app_assoc_str, lines_go_app by assumption.
  simpl. rewrite ?Ascii.eqb_refl, IH by assumption. reflexivity.
Qed.

Lemma lines_no_nl (s : string) :
  string_forall no_nl s = true -> lines s = [s].
Proof.
  intros H. unfold lines. rewrite <- (app_nil_r_str s) at 1.
  rewrite lines_go_app by exact H. reflexivity.
Qed.

Lemma strip_comment_id (s : string) :
  string_forall no_hash s = true -> strip_comment s = s.
Proof.
  induction s as [|c s IH]; simpl; [reflexivity|].
  intros H. apply andb_prop in H as [H1 H2]. unfold no_hash in H1.
  apply negb_true_iff in H1. rewrite H1, IH by exact H2. reflexivity.
Qed.

(* ------------------------------------------------------------------ *)
(** ** Lemmas on decimal integers *)

Lemma string_to_uint_to_string (u : Decimal.uint) :
  string_to_uint (uint_to_string u) = Some u.
Proof. induction u; simpl; try rewrite IHu; reflexivity. Qed.

Lemma uint_to_string_digits (u : Decimal.uint) :
  string_forall is_digit (uint_to_string u) = true.
Proof. induction u; simpl; auto. Qed.

Lemma show_N_nonempty (n : N) : show_N n <> EmptyString.
Proof.
  unfold show_N. destruct (N.to_uint n) eqn:E; simpl; try discriminate.
  pose proof (DecimalN.Unsigned.of_to n) as Hn. rewrite E in Hn.
  simpl in Hn. subst n. discriminate E.
Qed.

Lemma digits_value_show_N (n : N) : digits_value (show_N n) = Some (Z.of_N n).
Proof.
  pose proof (show_N_nonempty n) as Hne. unfold digits_value.
  destruct (show_N n) as [|c s] eqn:E; [congruence|]. rewrite <- E.
  unfold show_N. rewrite string_to_uint_to_string, DecimalN.Unsigned.of_to.
  reflexivity.
Qed.

Lemma digit_not_sign (c : ascii) :
  is_digit c = true -> Ascii.eqb c "-"%char = false /\ Ascii.eqb c "+"%char = false.
Proof.
  intros H. split.
  - destruct (Ascii.eqb_spec c "-"%char) as [->|]; [discriminate|reflexivity].
  - destruct (Ascii.eqb_spec c "+"%char) as [->|]; [discriminate|reflexivity].
Qed.

Lemma parse_int64_fmt_d (z : Z) : in_int64 z = true -> parse_int64 (fmt_d z) = Some z.
Proof.
  intros Hin. unfold fmt_d, parse_int64. destruct (z <? 0) eqn:Hz.
  - apply Z.ltb_lt in Hz. simpl. rewrite digits_value_show_N. simpl.
    rewrite Z2N.id by lia. replace (- - z) with z by lia. rewrite Hin. reflexivity.
  - apply Z.ltb_ge in Hz.
    pose proof (uint_to_string_digits (N.to_uint (Z.to_N z))) as Hd.
    pose proof (digits_value_show_N (Z.to_N z)) as Hv.
    rewrite Z2N.id in Hv by lia. unfold show_N in *.
    destruct (uint_to_string (N.to_uint (Z.to_N z))) as [|c s] eqn:E.
    + discriminate Hv.
    + simpl in Hd. apply andb_prop in Hd as [Hc _].
      destruct (digit_not_sign c Hc) as [-> ->]. rewrite Hv, Hin. reflexivity.
Qed.

Lemma fmt_d_chars (z : Z) : string_forall digit_or_minus (fmt_d z) = true.
Proof.
  assert (Hs : forall n, string_forall digit_or_minus (show_N n) = true).
  { intros n. eapply string_forall_mono; [|apply uint_to_string_digits].
    intros c Hc. unfold digit_or_minus. rewrite Hc. reflexivity. }
  unfold fmt_d. destruct (z <? 0); [simpl; apply Hs|apply Hs].
Qed.

Lemma fmt_d_nonempty (z : Z) : fmt_d z <> EmptyString.
Proof.
  unfold fmt_d. destruct (z <? 0); [discriminate|apply show_N_nonempty].
Qed.

Lemma digit_or_minus_plain (c : ascii) :
  digit_or_minus c = true ->
  no_space c = true /\ no_nl c = true /\ no_hash c = true.
Proof.
  unfold digit_or_minus, is_digit, no_space, no_nl, no_hash, is_space, code, nl.
  intros H. apply orb_prop in H as [H|H].
  - apply andb_prop in H as [H1 H2].
    repeat split; apply negb_true_iff.
    + apply Nat.leb_le in H1, H2.
      apply orb_false_iff; split; apply andb_false_iff; left + right;
        apply Nat.leb_gt; lia.
    + destruct (Ascii.eqb_spec c (ascii_of_nat 10)) as [->|];
        [vm_compute in H1; discriminate H1|reflexivity].
    + destruct (Ascii.eqb_spec c "#"%char) as [->|];
        [vm_compute in H1; discriminate H1|reflexivity].
  - apply Ascii.eqb_eq in H. subst c. repeat split; reflexivity.
Qed.

Lemma fmt_d_plain (z : Z) :
  string_forall no_space (fmt_d z) = true /\
  string_forall no_nl (fmt_d z) = true /\
  string_forall no_hash (fmt_d z) = true.
Proof.
  pose proof (fmt_d_chars z) as H.
  repeat split; (eapply string_forall_mono; [|exact H]);
    intros c Hc; apply digit_or_minus_plain in Hc; tauto.
Qed.

(* ------------------------------------------------------------------ *)
(** ** [loadtxt] reads back what [savetxt] and the wire format write *)

Lemma map_opt_parse_fmt (xs : list Z) :
  Forall (fun z => in_int64 z = true) xs -> map_opt parse_int64 (map fmt_d xs) = Some xs.
Proof.
  induction 1 as [|x xs Hx Hxs IH]; [reflexivity|].
  simpl. rewrite parse_int64_fmt_d, IH by assumption. reflexivity.
Qed.

Lemma reshape2_flatten2 (arr : capture) : reshape2 (flatten2 arr) = Some arr.
Proof.
  induction arr as [|[a b] arr IH]; [reflexivity|].
  change (reshape2 (a :: b :: flatten2 arr) = Some ((a, b) :: arr)).
  cbn [reshape2]. rewrite IH. reflexivity.
Qed.

Lemma reshape2_spec (n : nat) (xs : list Z) : (length xs <= n)%nat ->
  match reshape2 xs with
  | Some arr => Nat.even (length xs) = true /\ flatten2 arr = xs
  | None => Nat.even (length xs) = false
  end.
Proof.
  revert xs. induction n as [|n IH]; intros xs Hlen.
  - destruct xs; [split; reflexivity|simpl in Hlen; lia].
  - destruct xs as [|a [|b r]]; [split; reflexivity|reflexivity|].
    simpl. specialize (IH r). simpl in Hlen.
    destruct (reshape2 r) as [arr|]; simpl.
    + destruct IH as [He Hf]; [lia|]. split; [exact He|].
      change (a :: b :: flatten2 arr = a :: b :: r). rewrite Hf. reflexivity.
    + apply IH. lia.
Qed.

Lemma flatten2_in_int64 (arr : capture) :
  Forall (fun r => row_in_int64 r = true) arr ->
  Forall (fun z => in_int64 z = true) (flatten2 arr).
Proof.
  induction 1 as [|[a b] arr Hr Harr IH]; [constructor|].
  unfold row_in_int64 in Hr. simpl in Hr. apply andb_prop in Hr as [Ha Hb].
  simpl. repeat constructor; assumption.
Qed.

Lemma string_forall_join (p : ascii -> bool) (sep : string) (toks : list string) :
  string_forall p sep = true ->
  Forall (fun t => string_forall p t = true) toks ->
  string_forall p (join sep toks) = true.
Proof.
  intros Hsep. induction 1 as [|x l Hx Hl IH]; [reflexivity|].
  destruct l as [|y l]; [exact Hx|].
  change (join sep (x :: y :: l)) with (x ++ sep ++ join sep (y :: l)).
  rewrite !string_forall_app, Hx, Hsep, IH. reflexivity.
Qed.

Lemma loadtxt_encode (xs : list Z) :
  Forall (fun z => in_int64 z = true) xs -> loadtxt (encode_payload xs) = Some xs.
Proof.
  intros Hxs. unfold loadtxt, rows_of, encode_payload.
  assert (Htok : Forall plain_token (map fmt_d xs)).
  { apply Forall_map, Forall_forall. intros z _.
    split; [apply fmt_d_nonempty|apply fmt_d_plain]. }
  assert (Hp : forall p, p " "%char = true ->
            (forall z, string_forall p (fmt_d z) = true) ->
            string_forall p (join " " (map fmt_d xs)) = true).
  { intros p Hsp Hz. apply string_forall_join; [simpl; rewrite Hsp; reflexivity|].
    apply Forall_map, Forall_forall. intros z _. apply Hz. }
  rewrite lines_no_nl by (apply Hp; [reflexivity|apply fmt_d_plain]).
  simpl map. rewrite strip_comment_id by (apply Hp; [reflexivity|apply fmt_d_plain]).
  rewrite split_ws_join by exact Htok.
  destruct xs as [|x xs']; [reflexivity|].
  simpl List.filter. simpl. rewrite Nat.eqb_refl. simpl.
  rewrite app_nil_r. apply (map_opt_parse_fmt (x :: xs')). exact Hxs.
Qed.

Lemma savetxt_text_lines (arr : capture) :
  savetxt_text arr =
  ("# " ++ HEADER) ++ String nl (cat (map (fun l => l ++ char1 nl) (map row_line arr))).
Proof.
  unfold savetxt_text. rewrite <- !app_assoc_str. do 2 f_equal.
  rewrite map_map. f_equal. f_equal. apply map_ext. intros [a b]. unfold row_line.
  simpl fst. simpl snd. rewrite <- !app_assoc_str. reflexivity.
Qed.

Lemma row_line_fields (r : Z * Z) : split_ws (strip_comment (row_line r)) = row_fields r.
Proof.
  destruct r as [a b]. unfold row_line, row_fields. cbn [fst snd].
  destruct (fmt_d_plain a) as (Ha1 & Ha2 & Ha3).
  destruct (fmt_d_plain b) as (Hb1 & Hb2 & Hb3).
  rewrite strip_comment_id
    by (rewrite !string_forall_app, Ha3, Hb3; reflexivity).
  apply (split_ws_join [fmt_d a; fmt_d b]).
  repeat constructor; auto using fmt_d_nonempty.
Qed.

Lemma filter_rows (arr : capture) :
  List.filter (fun r => negb (is_nil r))
    (map (fun l => split_ws (strip_comment l)) (map row_line arr ++ [EmptyString])%list)
  = map row_fields arr.
Proof.
  induction arr as [|r arr IH]; [reflexivity|].
  cbn [map app]. rewrite row_line_fields. cbn [List.filter]. rewrite IH. reflexivity.
Qed.

Lemma rows_of_savetxt (arr : capture) : rows_of (savetxt_text arr) = map row_fields arr.
Proof.
  unfold rows_of, lines. rewrite savetxt_text_lines, lines_go_app by reflexivity.
  simpl lines_go.
  rewrite lines_go_cat.
  2:{ apply Forall_map, Forall_forall. intros [a b] _. unfold row_line. cbn [fst snd].
      destruct (fmt_d_plain a) as (_ & Ha & _). destruct (fmt_d_plain b) as (_ & Hb & _).
      rewrite !string_forall_app, Ha, Hb. reflexivity. }
  cbn [map List.filter]. rewrite filter_rows. reflexivity.
Qed.

Lemma concat_row_fields (arr : capture) :
  concat (map row_fields arr) = map fmt_d (flatten2 arr).
Proof. induction arr as [|[a b] arr IH]; [reflexivity|]. simpl. rewrite IH. reflexivity. Qed.

Lemma loadtxt_savetxt (arr : capture) :
  Forall (fun r => row_in_int64 r = true) arr ->
  loadtxt (savetxt_text arr) = Some (flatten2 arr).
Proof.
  intros Harr. unfold loadtxt. rewrite rows_of_savetxt.
  destruct arr as [|r arr']; [reflexivity|].
  cbn [map]. replace (forallb _ _) with true.
  - rewrite <- (map_cons row_fields r arr'), concat_row_fields.
    apply map_opt_parse_fmt, flatten2_in_int64, Harr.
  - symmetry. apply forallb_forall. intros x Hx.
    apply in_inv in Hx as [<-|Hx]; [apply Nat.eqb_refl|].
    apply in_map_iff in Hx as [r' [<- _]]. reflexivity.
Qed.

(* ------------------------------------------------------------------ *)
(** ** Lemmas on the handlers *)

Lemma split_space1_cases (s : string) :
  (string_forall no_sp1 s = true /\ split_space1 s = [s]) \/
  (exists tag payload, string_forall no_sp1 tag = true /\
     s = tag ++ String " " payload /\ split_space1 s = [tag; payload]).
Proof.
  induction s as [|c s IH]; [left; split; reflexivity|].
  simpl. unfold no_sp1 at 1. destruct (Ascii.eqb_spec c " "%char) as [->|Hc].
  - right. exists EmptyString, s. repeat split.
  - destruct IH as [[Hs Hsp]|(tag & payload & Ht & -> & Hsp)].
    + left. rewrite Hs, Hsp. split; reflexivity.
    + right. exists (String c tag), payload. rewrite Hsp. repeat split.
      simpl. unfold no_sp1 at 1. apply Ascii.eqb_neq in Hc. rewrite Hc, Ht. reflexivity.
Qed.

Lemma split_space1_app (tag payload : string) :
  string_forall no_sp1 tag = true ->
  split_space1 (tag ++ String " " payload) = [tag; payload].
Proof.
  induction tag as [|c tag IH]; intros H; [reflexivity|].
  simpl in H. apply andb_prop in H as [H1 H2]. unfold no_sp1 in H1.
  apply negb_true_iff in H1. simpl. rewrite H1, IH by exact H2. reflexivity.
Qed.

Lemma handle_line_tag (cfg : config) (u tag payload : string) (st : state) :
  string_forall no_sp1 tag = true ->
  handle_line cfg u (tag ++ String " " payload) st = run_handler cfg (choice tag) u payload st.
Proof. intros H. unfold handle_line. rewrite split_space1_app by exact H. reflexivity. Qed.

Lemma handle_line_data (cfg : config) (u data : string) (st : state) :
  handle_line cfg u ("DATA " ++ data) st = onData cfg u data st.
Proof. apply (handle_line_tag cfg u "DATA" data st). reflexivity. Qed.

Lemma onData_ok (cfg : config) (u data : string) (st : state) (arr : capture) :
  decode_payload data = Some arr -> maxsize (q st) = 0 ->
  exists st', onData cfg u data st = Normal st' /\
    files st' = <[path_join (out_dir cfg) (capture_filename u) := savetxt_text arr]> (files st) /\
    q st' = (if show_signal cfg then mkQueue 0 (items (q st) ++ [arr])%list else q st) /\
    trace st' = (trace st ++
                 [EvSave (path_join (out_dir cfg) (capture_filename u)) arr;
                  EvPrint ("ARDUINO Data captured, saved to " ++ capture_filename u)] ++
                 (if show_signal cfg then [EvPut arr] else []))%list /\
    done st' = done st.
Proof.
  intros Hdec Hmax. unfold decode_payload in Hdec. unfold onData.
  destruct (loadtxt data) as [flat|]; [|discriminate]. rewrite Hdec.
  destruct (show_signal cfg).
  - unfold queue_put. simpl. rewrite Hmax. simpl.
    eexists; repeat split. rewrite <- !app_assoc. reflexivity.
  - eexists; repeat split. simpl. rewrite <- !app_assoc; try rewrite app_nil_r; reflexivity.
Qed.

Lemma decode_payload_encode (xs : list Z) :
  Forall (fun z => in_int64 z = true) xs -> Nat.even (length xs) = true ->
  exists arr, decode_payload (encode_payload xs) = Some arr /\ flatten2 arr = xs.
Proof.
  intros Hxs Hev. unfold decode_payload. rewrite loadtxt_encode by exact Hxs.
  pose proof (reshape2_spec (length xs) xs (le_n _)) as Hr.
  destruct (reshape2 xs) as [arr|]; [|congruence].
  exists arr. split; [reflexivity|apply Hr].
Qed.

Lemma decode_payload_savetxt (arr : capture) :
  Forall (fun r => row_in_int64 r = true) arr -> decode_payload (savetxt_text arr) = Some arr.
Proof.
  intros H. unfold decode_payload. rewrite loadtxt_savetxt by exact H.
  apply reshape2_flatten2.
Qed.

(** What one line can do to the state: an exception leaves it as it was;
    otherwise [done] and the queue's [maxsize] are kept, the trace only
    grows, and the queue either is untouched or gains one capture whose
    [EvSave] precedes its [EvPut] in the added events. *)
Lemma handle_line_shape (cfg : config) (u line : string) (st : state) :
  match handle_line cfg u line st with
  | Raise _ st' => st' = st
  | Normal st' | Blocked st' =>
      done st' = done st /\ maxsize (q st') = maxsize (q st) /\
      ((q st' = q st /\ exists t, trace st' = (trace st ++ t)%list) \/
       (exists arr p m, items (q st') = (items (q st) ++ [arr])%list /\
          trace st' = (trace st ++ [EvSave p arr; EvPrint m; EvPut arr])%list))
  end.
Proof.
  unfold handle_line.
  destruct (split_space1 line) as [|tag [|payload [|]]];
    try (split; [reflexivity|split; [reflexivity|left; split; [reflexivity|exists []; rewrite app_nil_r; reflexivity]]]).
  unfold run_handler. destruct (choice tag).
  - split; [reflexivity|split; [reflexivity|left; split; [reflexivity|eexists; reflexivity]]].
  - unfold onData. destruct (loadtxt payload) as [flat|]; [|reflexivity].
    destruct (reshape2 flat) as [arr|]; [|reflexivity]. cbv zeta.
    destruct (show_signal cfg).
    + unfold queue_put. simpl.
      destruct ((0 <? maxsize (q st)) && (maxsize (q st) <=? Z.of_nat (length (items (q st))))).
      * split; [reflexivity|split; [reflexivity|left; split; [reflexivity|]]].
        eexists. simpl. rewrite <- app_assoc. reflexivity.
      * split; [reflexivity|split; [reflexivity|right]].
        eexists arr, _, _. split; [reflexivity|]. simpl. rewrite <- !app_assoc. reflexivity.
    + split; [reflexivity|split; [reflexivity|left; split; [reflexivity|]]].
      eexists. simpl. rewrite <- app_assoc. reflexivity.
  - split; [reflexivity|split; [reflexivity|left; split; [reflexivity|eexists; reflexivity]]].
Qed.

Lemma main_step_shape (cfg : config) (pc : mpc) (st : state) :
  let '(pc', st') := main_step cfg pc st in
  done st' = done st /\ maxsize (q st') = maxsize (q st) /\
  (exists t, trace st' = (trace st ++ t)%list) /\
  (forall x, In x (items (q st')) -> In x (items (q st))).
Proof.
  assert (Hid : done st = done st /\ maxsize (q st) = maxsize (q st) /\
                (exists t, trace st = (trace st ++ t)%list) /\
                (forall x, In x (items (q st)) -> In x (items (q st)))).
  { refine (conj eq_refl (conj eq_refl (conj _ (fun x H => H)))).
    exists []. rewrite app_nil_r. reflexivity. }
  destruct pc; simpl; try exact Hid.
  { destruct (done st) eqn:Hd; simpl; (split; [exact Hd|]); exact (proj2 Hid). }
  unfold queue_get_nowait. destruct (items (q st)) as [|y ys] eqn:E; [rewrite E; exact Hid|].
  destruct (show_signal cfg); simpl.
  - refine (conj eq_refl (conj eq_refl (conj (ex_intro _ _ eq_refl) _))).
    intros x Hx. right. exact Hx.
  - refine (conj eq_refl (conj eq_refl (conj _ _))).
    + exists []. rewrite app_nil_r. reflexivity.
    + intros x Hx. right. exact Hx.
Qed.

(* ------------------------------------------------------------------ *)
(** ** Invariants of the two threads *)

Ltac list_norm := repeat (rewrite <- app_assoc || rewrite <- app_comm_cons).

Lemma connection_lost_fields (exc : option string) (st : state) :
  files (connection_lost exc st) = files st /\ q (connection_lost exc st) = q st /\
  done (connection_lost exc st) = done st /\
  exists t, trace (connection_lost exc st) = (trace st ++ t)%list.
Proof.
  destruct exc; simpl; repeat split; eexists; rewrite <- ?app_assoc; reflexivity.
Qed.

Lemma signal_handler_fields (st : state) :
  files (signal_handler st) = files st /\ q (signal_handler st) = q st /\
  done (signal_handler st) = true /\
  trace (signal_handler st) = (trace st ++ [EvPrint "Cleaning up..."])%list.
Proof. repeat split. Qed.

Lemma sys_step_done (cfg : config) (s s' : sys) :
  sys_step cfg s s' -> done (sst s) = true -> done (sst s') = true.
Proof.
  intros Hs Hd. destruct Hs as [pc st pc' st' r Hm|pc u line st st' Hl|pc u line st e st' Hl|pc exc st|pc r st];
    cbn [sst pc_of] in *.
  - pose proof (main_step_shape cfg pc st) as Hsh. rewrite Hm in Hsh. destruct Hsh as [-> _]. exact Hd.
  - pose proof (handle_line_shape cfg u line st) as Hsh. rewrite Hl in Hsh.
    destruct Hsh as [-> _]. exact Hd.
  - pose proof (handle_line_shape cfg u line st) as Hsh. rewrite Hl in Hsh. subst st'.
    destruct (connection_lost_fields (Some e) st) as (_ & _ & -> & _). exact Hd.
  - destruct (connection_lost_fields exc st) as (_ & _ & -> & _). exact Hd.
  - reflexivity.
Qed.

Lemma sys_steps_done (cfg : config) (s s' : sys) :
  sys_steps cfg s s' -> done (sst s) = true -> done (sst s') = true.
Proof. induction 1; eauto using sys_step_done. Qed.

Lemma sys_step_maxsize (cfg : config) (s s' : sys) :
  sys_step cfg s s' -> maxsize (q (sst s')) = maxsize (q (sst s)).
Proof.
  intros Hs. destruct Hs as [pc st pc' st' r Hm|pc u line st st' Hl|pc u line st e st' Hl|pc exc st|pc r st];
    cbn [sst pc_of] in *.
  - pose proof (main_step_shape cfg pc st) as Hsh. rewrite Hm in Hsh. apply Hsh.
  - pose proof (handle_line_shape cfg u line st) as Hsh. rewrite Hl in Hsh. apply Hsh.
  - pose proof (handle_line_shape cfg u line st) as Hsh. rewrite Hl in Hsh. subst st'.
    destruct (connection_lost_fields (Some e) st) as (_ & -> & _). reflexivity.
  - destruct (connection_lost_fields exc st) as (_ & -> & _). reflexivity.
  - reflexivity.
Qed.

Lemma sys_steps_maxsize (cfg : config) (s s' : sys) :
  sys_steps cfg s s' -> maxsize (q (sst s')) = maxsize (q (sst s)).
Proof.
  induction 1 as [|x y z Hxy Hyz IH]; [reflexivity|].
  rewrite IH. apply (sys_step_maxsize cfg _ _ Hxy).
Qed.

Lemma sys_step_not_body (cfg : config) (s s' : sys) :
  sys_step cfg s s' -> done (sst s) = true -> pc_of s <> MBody -> pc_of s' <> MBody.
Proof.
  intros Hs Hd Hpc. destruct Hs as [pc st pc' st' r Hm| | | |]; simpl in *; try exact Hpc.
  destruct pc; [|exfalso; apply Hpc; reflexivity| |];
    simpl in Hm; rewrite ?Hd in Hm; injection Hm as <- <-; discriminate.
Qed.

Lemma queued_are_saved_grow (st st' : state) (t : list event) :
  queued_are_saved st ->
  (forall x, In x (items (q st')) -> In x (items (q st))) ->
  trace st' = (trace st ++ t)%list -> queued_are_saved st'.
Proof.
  intros Hinv Hsub Ht x Hx. destruct (Hinv x (Hsub x Hx)) as (p & m & t1 & t3 & Ht0).
  exists p, m, t1, (t3 ++ t)%list. rewrite Ht, Ht0. list_norm. reflexivity.
Qed.

Lemma sys_step_queued_are_saved (cfg : config) (s s' : sys) :
  sys_step cfg s s' -> queued_are_saved (sst s) -> queued_are_saved (sst s').
Proof.
  intros Hs Hinv. destruct Hs as [pc st pc' st' r Hm|pc u line st st' Hl|pc u line st e st' Hl|pc exc st|pc r st];
    cbn [sst pc_of] in *.
  - pose proof (main_step_shape cfg pc st) as Hsh. rewrite Hm in Hsh.
    destruct Hsh as (_ & _ & [t Ht] & Hsub). exact (queued_are_saved_grow st st' t Hinv Hsub Ht).
  - pose proof (handle_line_shape cfg u line st) as Hsh. rewrite Hl in Hsh.
    destruct Hsh as (_ & _ & [[Hq [t Ht]]|(arr & p & m & Hq & Ht)]).
    + apply (queued_are_saved_grow st st' t Hinv); [rewrite Hq; auto|exact Ht].
    + intros x Hx. rewrite Hq in Hx. apply in_app_or in Hx as [Hx|[<-|[]]].
      * destruct (Hinv x Hx) as (p' & m' & t1 & t3 & Ht0).
        exists p', m', t1, (t3 ++ [EvSave p arr; EvPrint m; EvPut arr])%list.
        rewrite Ht, Ht0. list_norm. reflexivity.
      * exists p, m, (trace st), []. rewrite Ht. reflexivity.
  - pose proof (handle_line_shape cfg u line st) as Hsh. rewrite Hl in Hsh. subst st'.
    destruct (connection_lost_fields (Some e) st) as (_ & Hq & _ & [t Ht]).
    apply (queued_are_saved_grow st _ t Hinv); [rewrite Hq; auto|exact Ht].
  - destruct (connection_lost_fields exc st) as (_ & Hq & _ & [t Ht]).
    apply (queued_are_saved_grow st _ t Hinv); [rewrite Hq; auto|exact Ht].
  - apply (queued_are_saved_grow st _ [EvPrint "Cleaning up..."] Hinv); [auto|reflexivity].
Qed.

Lemma sys_steps_queued_are_saved (cfg : config) (s s' : sys) :
  sys_steps cfg s s' -> queued_are_saved (sst s) -> queued_are_saved (sst s').
Proof. induction 1; eauto using sys_step_queued_are_saved. Qed.

Lemma flatten2_in_int64_inv (arr : capture) :
  Forall (fun z => in_int64 z = true) (flatten2 arr) ->
  Forall (fun r => row_in_int64 r = true) arr.
Proof.
  induction arr as [|[a b] arr IH]; intros H; [constructor|].
  change (flatten2 ((a, b) :: arr)) with (a :: b :: flatten2 arr) in H.
  inversion H as [|? ? Ha H']; subst. inversion H' as [|? ? Hb H'']; subst.
  constructor; [unfold row_in_int64; simpl; rewrite Ha, Hb; reflexivity|auto].
Qed.

Lemma sys_steps_not_body (cfg : config) (s s' : sys) :
  sys_steps cfg s s' -> done (sst s) = true -> pc_of s <> MBody ->
  done (sst s') = true /\ pc_of s' <> MBody.
Proof.
  induction 1 as [s|s1 s2 s3 H12 H23 IH]; intros Hd Hpc; [auto|].
  apply IH; [exact (sys_step_done cfg _ _ H12 Hd)|exact (sys_step_not_body cfg _ _ H12 Hd Hpc)].
Qed.

Lemma main_steps_exit (cfg : config) (pc : mpc) (st : state) :
  done st = true -> pc <> MBody -> fst (main_steps cfg 2 pc st) = MExit.
Proof. intros Hd Hpc. destruct pc; simpl; rewrite ?Hd; simpl; congruence. Qed.

Lemma put_all_unbounded {A} (l xs : list A) :
  put_all (mkQueue 0 l) xs = Some (mkQueue 0 (l ++ xs)%list).
Proof.
  revert l. induction xs as [|x xs IH]; intros l; simpl; [rewrite app_nil_r; reflexivity|].
  rewrite IH, <- app_assoc. reflexivity.
Qed.

Lemma get_n_all {A} (m : Z) (xs : list A) : get_n (length xs) (mkQueue m xs) = xs.
Proof. induction xs as [|x xs IH]; simpl; [reflexivity|]. rewrite IH. reflexivity. Qed.

Lemma handle_line_not_blocked (cfg : config) (u line : string) (st : state) :
  maxsize (q st) = 0 ->
  match handle_line cfg u line st with Blocked _ => False | _ => True end.
Proof.
  intros Hmax. unfold handle_line.
  destruct (split_space1 line) as [|tag [|payload [|]]]; try exact I.
  unfold run_handler. destruct (choice tag); try exact I.
  unfold onData. destruct (loadtxt payload) as [flat|]; [|exact I].
  destruct (reshape2 flat) as [arr|]; [|exact I]. cbv zeta.
  destruct (show_signal cfg); [|exact I].
  unfold queue_put. simpl. rewrite Hmax. exact I.
Qed.

(* ------------------------------------------------------------------ *)
(** ** The claims *)

(** C1: [connection_lost] is meant to set the shutdown flag.  It does not:
    the module-level [done] is the same after the call, whatever the cause,
    so the polling loop of [main] takes the same branch as before. *)
Theorem connection_lost_keeps_done (cfg : config) (exc : option string) (st : state) :
  done (connection_lost exc st) = done st /\
  fst (main_step cfg MCheck (connection_lost exc st)) = fst (main_step cfg MCheck st).
Proof.
  destruct (connection_lost_fields exc st) as (_ & _ & Hd & _).
  split; [exact Hd|]. unfold main_step. rewrite Hd. destruct (done st); reflexivity.
Qed.

(** C2 (as the code does it): a line is split at its first single space,
    not at a whitespace run.  Either the line has no space at all and is
    dropped (state unchanged, no exception), or it is [tag ++ " " ++ payload]
    with no space in [tag], and exactly the handler chosen by [tag] runs on
    [payload], which may be empty. *)
Theorem handle_line_split_first_space (cfg : config) (u line : string) (st : state) :
  (string_forall no_sp1 line = true /\ handle_line cfg u line st = Normal st) \/
  (exists tag payload, string_forall no_sp1 tag = true /\
     line = tag ++ String " " payload /\
     handle_line cfg u line st = run_handler cfg (choice tag) u payload st).
Proof.
  destruct (split_space1_cases line) as [[Hs Hsp]|(tag & payload & Ht & Hl & Hsp)].
  - left. split; [exact Hs|]. unfold handle_line. rewrite Hsp. reflexivity.
  - right. exists tag, payload. repeat split; [exact Ht|exact Hl|].
    unfold handle_line. rewrite Hsp. reflexivity.
Qed.

(** C2, counterexample: ["LOG "] has an empty payload and is not dropped
    ([onLog] prints ["ARDUINO "]), while ["LOG<TAB>hello"] splits into two
    non-empty parts at a whitespace run and is dropped. *)
Lemma handle_line_not_whitespace_run :
  handle_line cfg_show uuid0 "LOG " init_state = Normal (print "ARDUINO " init_state) /\
  handle_line cfg_show uuid0 ("LOG" ++ String (ascii_of_nat 9) "hello") init_state
    = Normal init_state.
Proof. split; reflexivity. Qed.

(** C3 (as the code does it): a DATA payload that [np.loadtxt] cannot read
    as int64 fields, or whose integer count is odd, makes [onData] raise
    [ValueError] before anything is written: the state at the raise is the
    state before the line (no file, no queue item, no output).  Nothing in
    [handle_line] catches the exception, so it also ends the line loop: the
    lines after it are not handled. *)
Theorem onData_rejects_bad_payload (cfg : config) (u payload : string) (st : state)
    (rest : list (string * string)) :
  (loadtxt payload = None \/
   exists xs, loadtxt payload = Some xs /\ Nat.even (length xs) = false) ->
  handle_line cfg u ("DATA " ++ payload) st = Raise "ValueError" st /\
  data_received cfg ((u, "DATA " ++ payload) :: rest) st = Raise "ValueError" st.
Proof.
  intros Hbad.
  assert (Hd : onData cfg u payload st = Raise "ValueError" st).
  { unfold onData. destruct Hbad as [-> | (xs & -> & Hodd)]; [reflexivity|].
    pose proof (reshape2_spec (length xs) xs (le_n _)) as Hr.
    destruct (reshape2 xs); [destruct Hr; congruence|reflexivity]. }
  split.
  - rewrite handle_line_data. exact Hd.
  - cbn [data_received]. rewrite handle_line_data, Hd. reflexivity.
Qed.

Lemma onData_rejects_bad_payload_witness :
  loadtxt "0 1 100" = Some [0; 1; 100] /\
  handle_line cfg_show uuid0 ("DATA " ++ "0 1 100") init_state = Raise "ValueError" init_state /\
  data_received cfg_show [(uuid0, "DATA " ++ "0 1 100"); (uuid0, "LOG hello")] init_state
    = Raise "ValueError" init_state.
Proof.
  split; [vm_compute; reflexivity|].
  apply (onData_rejects_bad_payload cfg_show uuid0 "0 1 100" init_state [(uuid0, "LOG hello")]).
  right. exists [0; 1; 100]. split; [vm_compute|]; reflexivity.
Defined.

(** C3, counterexample: the reader does not go on after an odd-count DATA
    line.  The exception escapes, the following ["LOG hello"] is never
    handled, and nothing on this path prints an error line (pyserial's
    reader thread then stops and calls [connection_lost]). *)
Lemma reader_stops_after_bad_data :
  data_received cfg_show [(uuid0, "DATA 0 1 100"); (uuid0, "LOG hello")] init_state
    = Raise "ValueError" init_state.
Proof. vm_compute. reflexivity. Qed.

(** C4 (as the code does it): for every even-length sequence [S] of
    integers in the int64 range ([dtype=int]), decoding the encoded payload
    gives [S] as (timestamp, state) pairs, and the file [onData] writes for
    it, read back with [loadtxt] and [reshape((-1,2))], gives the same
    pairs in the same order. *)
Theorem capture_round_trip (S : list Z) (cfg : config) (u : string) (st : state) :
  Nat.even (length S) = true -> Forall (fun z => in_int64 z = true) S ->
  maxsize (q st) = 0 ->
  exists arr st', decode_payload (encode_payload S) = Some arr /\ flatten2 arr = S /\
    onData cfg u (encode_payload S) st = Normal st' /\
    files st' !! path_join (out_dir cfg) (capture_filename u) = Some (savetxt_text arr) /\
    decode_payload (savetxt_text arr) = Some arr.
Proof.
  intros Hev HS Hmax.
  destruct (decode_payload_encode S HS Hev) as (arr & Hdec & Hflat).
  destruct (onData_ok cfg u (encode_payload S) st arr Hdec Hmax) as (st' & Hon & Hf & _).
  exists arr, st'. repeat split; try assumption.
  - rewrite Hf. apply lookup_insert_eq.
  - apply decode_payload_savetxt, flatten2_in_int64_inv. rewrite Hflat. exact HS.
Qed.

Lemma capture_round_trip_witness :
  exists arr st', decode_payload (encode_payload [0; 1; 100; 0]) = Some arr /\
    flatten2 arr = [0; 1; 100; 0] /\
    onData cfg_show uuid0 (encode_payload [0; 1; 100; 0]) init_state = Normal st' /\
    files st' !! path_join (out_dir cfg_show) (capture_filename uuid0) = Some (savetxt_text arr) /\
    decode_payload (savetxt_text arr) = Some arr.
Proof.
  apply capture_round_trip; [reflexivity| |reflexivity].
  repeat constructor.
Defined.

(** C4, counterexample: [2^63] is an integer, but not an int64, and the
    payload ["9223372036854775808 0"] is rejected. *)
Lemma round_trip_fails_outside_int64 :
  Nat.even (length [2 ^ 63; 0]) = true /\
  decode_payload (encode_payload [2 ^ 63; 0]) = None.
Proof. split; vm_compute; reflexivity. Qed.

(** C5 (as the code does it): for a line [tag ++ " " ++ payload] whose tag
    is neither LOG nor DATA, [onUnknown] runs on the payload alone (the tag
    is not passed on): it prints ["Unknown " ++ payload]; no file, no queue
    item, no exception. *)
Theorem unknown_tag_payload_only (cfg : config) (u tag payload : string) (st : state) :
  string_forall no_sp1 tag = true -> tag <> "LOG" -> tag <> "DATA" ->
  handle_line cfg u (tag ++ String " " payload) st = Normal (print ("Unknown " ++ payload) st).
Proof.
  intros Ht Hlog Hdata. rewrite handle_line_tag by exact Ht.
  unfold choice. apply String.eqb_neq in Hlog, Hdata. rewrite Hlog, Hdata. reflexivity.
Qed.

Lemma unknown_tag_payload_only_witness :
  handle_line cfg_show uuid0 ("FOO" ++ String " " "bar") init_state
    = Normal (print ("Unknown " ++ "bar") init_state).
Proof.
  apply unknown_tag_payload_only; [reflexivity|discriminate|discriminate].
Defined.

(** C5, counterexample: the unknown handler does not see the tag: ["FOO bar"]
    and ["QUX bar"] have the same effect, the single line ["Unknown bar"]. *)
Lemma unknown_handler_gets_no_tag :
  handle_line cfg_show uuid0 "FOO bar" init_state = handle_line cfg_show uuid0 "QUX bar" init_state /\
  handle_line cfg_show uuid0 "FOO bar" init_state = Normal (print "Unknown bar" init_state).
Proof. split; reflexivity. Qed.

(** C6 (as the code does it): a DATA payload that [np.loadtxt] reads as an
    even number of int64 integers is accepted whatever its state values:
    [onData] writes the pairs unchanged to the capture file, with no check
    that a state is 0 or 1. *)
Theorem onData_passes_states_through (cfg : config) (u data : string) (xs : list Z)
    (st : state) :
  loadtxt data = Some xs -> Nat.even (length xs) = true -> maxsize (q st) = 0 ->
  exists arr st', flatten2 arr = xs /\
    handle_line cfg u ("DATA " ++ data) st = Normal st' /\
    files st' !! path_join (out_dir cfg) (capture_filename u) = Some (savetxt_text arr).
Proof.
  intros Hl Hev Hmax.
  pose proof (reshape2_spec (length xs) xs (le_n _)) as Hr.
  destruct (reshape2 xs) as [arr|] eqn:Er; [|congruence]. destruct Hr as [_ Hflat].
  assert (Hdec : decode_payload data = Some arr) by (unfold decode_payload; rewrite Hl; exact Er).
  destruct (onData_ok cfg u data st arr Hdec Hmax) as (st' & Hon & Hf & _).
  exists arr, st'. repeat split; [exact Hflat| |].
  - rewrite handle_line_data. exact Hon.
  - rewrite Hf. apply lookup_insert_eq.
Qed.

Lemma onData_passes_states_through_witness :
  exists arr st', flatten2 arr = [0; 2] /\
    handle_line cfg_noshow uuid0 ("DATA " ++ "0 2") init_state = Normal st' /\
    files st' !! path_join (out_dir cfg_noshow) (capture_filename uuid0) = Some (savetxt_text arr).
Proof.
  apply onData_passes_states_through; [vm_compute; reflexivity|reflexivity|reflexivity].
Defined.

(** C6, counterexample: ["DATA 0 2"] carries the state 2; it is not
    rejected but written to the file as the row [(0,2)]. *)
Lemma out_of_range_state_written :
  match handle_line cfg_noshow uuid0 "DATA 0 2" init_state with
  | Normal st' => files st' !! "./1b4e28ba.csv" = Some (savetxt_text [(0, 2)])
  | _ => False
  end.
Proof. vm_compute. reflexivity. Qed.

(** C7: the line ["DATA 0 1 100 0"] writes exactly one file, at
    [out_dir/<uuid prefix>.csv], whose text reads back as the rows (0,1) and
    (100,0) in that order; with [--show-signal] the queue gains exactly that
    capture at its end, without it the queue is unchanged. *)
Theorem data_scenario_two_rows (cfg : config) (u : string) (st : state) :
  maxsize (q st) = 0 ->
  exists st', handle_line cfg u "DATA 0 1 100 0" st = Normal st' /\
    files st' = <[path_join (out_dir cfg) (capture_filename u) :=
                   savetxt_text [(0, 1); (100, 0)]]> (files st) /\
    decode_payload (savetxt_text [(0, 1); (100, 0)]) = Some [(0, 1); (100, 0)] /\
    items (q st') = (if show_signal cfg then items (q st) ++ [[(0, 1); (100, 0)]]
                     else items (q st))%list.
Proof.
  intros Hmax.
  assert (Hdec : decode_payload "0 1 100 0" = Some [(0, 1); (100, 0)])
    by (vm_compute; reflexivity).
  destruct (onData_ok cfg u "0 1 100 0" st _ Hdec Hmax) as (st' & Hon & Hf & Hq & _).
  exists st'. refine (conj _ (conj _ (conj _ _))).
  - change "DATA 0 1 100 0" with ("DATA " ++ "0 1 100 0"). rewrite handle_line_data. exact Hon.
  - exact Hf.
  - vm_compute. reflexivity.
  - rewrite Hq. destruct (show_signal cfg); reflexivity.
Qed.

Lemma data_scenario_two_rows_witness :
  exists st', handle_line cfg_show uuid0 "DATA 0 1 100 0" init_state = Normal st' /\
    files st' = <[path_join (out_dir cfg_show) (capture_filename uuid0) :=
                   savetxt_text [(0, 1); (100, 0)]]> (files init_state) /\
    decode_payload (savetxt_text [(0, 1); (100, 0)]) = Some [(0, 1); (100, 0)] /\
    items (q st') = (if show_signal cfg_show then items (q init_state) ++ [[(0, 1); (100, 0)]]
                     else items (q init_state))%list.
Proof. apply data_scenario_two_rows. reflexivity. Defined.

(** C8: once [signal_handler] has run while the main thread sleeps, in
    every later state of the process (any interleaving of reader steps,
    connection loss, further signals and main-loop steps) [done] is still
    true, the main thread never enters another loop body, and its next two
    steps (wake, loop test) bring it to the loop exit. *)
Theorem sigint_stops_polling (cfg : config) (r : bool) (st : state) (s' : sys) :
  sys_steps cfg (mkSys MSleep r (signal_handler st)) s' ->
  done (sst s') = true /\ pc_of s' <> MBody /\
  fst (main_steps cfg 2 (pc_of s') (sst s')) = MExit.
Proof.
  intros Hs.
  destruct (sys_steps_not_body cfg _ _ Hs eq_refl ltac:(discriminate)) as [Hd Hpc].
  repeat split; [exact Hd|exact Hpc|apply main_steps_exit; assumption].
Qed.

Lemma sigint_stops_polling_witness :
  done (sst (mkSys MSleep true (signal_handler init_state))) = true /\
  pc_of (mkSys MSleep true (signal_handler init_state)) <> MBody /\
  fst (main_steps cfg_show 2 MSleep (sst (mkSys MSleep true (signal_handler init_state))))
    = MExit.
Proof.
  apply (sigint_stops_polling cfg_show true init_state). apply rtc_refl.
Defined.

(** C9: the queue is [Queue()], i.e. [maxsize = 0], and stays so in every
    reachable state.  With [maxsize = 0], [q.put] never waits and appends
    the item; any sequence of puts leaves exactly the items put, and
    successive [q.get(False)] return them in FIFO order; no line handled
    by the reader ever blocks on the queue. *)
Theorem display_queue_unbounded (cfg : config) (s : sys) (xs items0 : list capture)
    (x : capture) :
  sys_steps cfg init_sys s ->
  maxsize (q (sst s)) = 0 /\
  queue_put (mkQueue 0 items0) x = PutOk (mkQueue 0 (items0 ++ [x])%list) /\
  put_all (@Queue_new capture) xs = Some (mkQueue 0 xs) /\
  get_n (length xs) (mkQueue 0 xs) = xs /\
  (forall u line, match handle_line cfg u line (sst s) with Blocked _ => False | _ => True end).
Proof.
  intros Hs. pose proof (sys_steps_maxsize cfg _ _ Hs) as Hmax. simpl in Hmax.
  refine (conj Hmax (conj eq_refl (conj _ (conj _ _)))).
  - apply (put_all_unbounded [] xs).
  - apply get_n_all.
  - intros u line. apply handle_line_not_blocked, Hmax.
Qed.

Lemma display_queue_unbounded_witness :
  maxsize (q (sst init_sys)) = 0 /\
  queue_put (mkQueue 0 [[(0, 1)]]) [(5, 0)] = PutOk (mkQueue 0 ([[(0, 1)]] ++ [[(5, 0)]])%list) /\
  put_all (@Queue_new capture) [[(0, 1)]; [(5, 0)]] = Some (mkQueue 0 [[(0, 1)]; [(5, 0)]]) /\
  get_n (length [[(0, 1)]; [(5, 0)]]) (mkQueue 0 [[(0, 1)]; [(5, 0)]]) = [[(0, 1)]; [(5, 0)]] /\
  (forall u line, match handle_line cfg_show u line (sst init_sys) with
                  | Blocked _ => False | _ => True end).
Proof.
  apply (display_queue_unbounded cfg_show init_sys). apply rtc_refl.
Defined.

(** C10: in every state the process reaches, each capture in the queue has
    been saved: the trace holds its [EvSave], then the confirmation line,
    then its [EvPut]. *)
Theorem persisted_before_enqueued (cfg : config) (s : sys) :
  sys_steps cfg init_sys s ->
  forall x, In x (items (q (sst s))) ->
  exists p m t1 t3, trace (sst s) = (t1 ++ EvSave p x :: EvPrint m :: EvPut x :: t3)%list.
Proof.
  intros Hs. apply (sys_steps_queued_are_saved cfg _ _ Hs).
  intros x Hx. destruct Hx.
Qed.

Lemma persisted_before_enqueued_witness :
  let st1 := match handle_line cfg_show uuid0 "DATA 0 1 100 0" init_state with
             | Normal st => st | _ => init_state end in
  items (q st1) = [[(0, 1); (100, 0)]] /\
  (forall x, In x (items (q (sst (mkSys MCheck true st1)))) ->
   exists p m t1 t3, trace (sst (mkSys MCheck true st1)) =
                     (t1 ++ EvSave p x :: EvPrint m :: EvPut x :: t3)%list).
Proof.
  intros st1. split; [vm_compute; reflexivity|].
  apply (persisted_before_enqueued cfg_show). apply rtc_once.
  apply (SysLine cfg_show MCheck uuid0 "DATA 0 1 100 0"). vm_compute. reflexivity.
Defined.

(* ------------------------------------------------------------------ *)
(** ** Further properties of the receiver *)

Lemma in_app_grow {A} (x : A) (l t : list A) : In x l -> In x (l ++ t)%list.
Proof. intros H. apply in_or_app. left. exact H. Qed.

(** What handling one line amounts to: a printed line, nothing, an
    exception with the state unchanged, or [onData] on a payload that
    decodes. *)
Lemma handle_line_cases (cfg : config) (u line : string) (st : state) :
  (exists m, handle_line cfg u line st = Normal (print m st)) \/
  handle_line cfg u line st = Normal st \/
  (exists e, handle_line cfg u line st = Raise e st) \/
  (exists payload arr, decode_payload payload = Some arr /\
     handle_line cfg u line st = onData cfg u payload st).
Proof.
  unfold handle_line.
  destruct (split_space1 line) as [|tag [|payload [|]]]; try (right; left; reflexivity).
  unfold run_handler. destruct (choice tag).
  - left. eexists. reflexivity.
  - destruct (decode_payload payload) as [arr|] eqn:Hd.
    + right; right; right. exists payload, arr. split; [exact Hd|reflexivity].
    + right; right; left. exists "ValueError". unfold onData. unfold decode_payload in Hd.
      destruct (loadtxt payload) as [flat|]; [|reflexivity]. rewrite Hd. reflexivity.
  - left. eexists. reflexivity.
Qed.

Lemma handle_line_raise_same (cfg : config) (u line : string) (st st' : state) (e : string) :
  handle_line cfg u line st = Raise e st' -> st' = st.
Proof.
  intros Hl. pose proof (handle_line_shape cfg u line st) as Hsh. rewrite Hl in Hsh. exact Hsh.
Qed.






Lemma main_steps_add (cfg : config) (a b : nat) (pc : mpc) (st : state) :
  main_steps cfg (a + b) pc st =
  let '(pc', st') := main_steps cfg a pc st in main_steps cfg b pc' st'.
Proof.
  revert pc st. induction a as [|a IH]; intros pc st; [reflexivity|].
  simpl. destruct (main_step cfg pc st) as [pc1 st1]. apply IH.
Qed.

Lemma main_step_files (cfg : config) (pc : mpc) (st : state) :
  files (snd (main_step cfg pc st)) = files st.
Proof.
  destruct pc; unfold main_step; try reflexivity.
  - destruct (done st); reflexivity.
  - destruct (queue_get_nowait (q st)) as [[a q']|]; [destruct (show_signal cfg)|]; reflexivity.
Qed.

Lemma main_step_empty (cfg : config) (pc : mpc) (st : state) :
  items (q st) = [] -> snd (main_step cfg pc st) = st.
Proof.
  intros He. destruct pc; unfold main_step; try reflexivity.
  - destruct (done st); reflexivity.
  - unfold queue_get_nowait. rewrite He. reflexivity.
Qed.

Lemma sys_step_stopped (cfg : config) (s s' : sys) :
  sys_step cfg s s' -> reading s = false ->
  reading s' = false /\ files (sst s') = files (sst s).
Proof.
  intros Hs Hr. destruct Hs as [pc st pc' st' r Hm| | | |pc r st]; cbn [sst reading] in *;
    try discriminate.
  - split; [exact Hr|]. change st' with (snd (pc', st')). rewrite <- Hm. apply main_step_files.
  - split; [exact Hr|reflexivity].
Qed.

Lemma files_valid_grow (st st' : state) (t : list event) :
  files_valid st -> files st' = files st -> trace st' = (trace st ++ t)%list ->
  files_valid st'.
Proof.
  intros Hv Hf Ht p text Hp. rewrite Hf in Hp. destruct (Hv p text Hp) as (arr & H1 & H2 & H3).
  exists arr. rewrite Ht. split; [exact H1|split; [exact H2|apply in_app_grow, H3]].
Qed.

Lemma parse_int64_range (tok : string) (z : Z) :
  parse_int64 tok = Some z -> in_int64 z = true.
Proof. unfold parse_int64. intros H. repeat case_match; congruence. Qed.

Lemma decode_payload_in_int64 (data : string) (arr : capture) :
  decode_payload data = Some arr -> Forall (fun r => row_in_int64 r = true) arr.
Proof.
  unfold decode_payload. destruct (loadtxt data) as [flat|] eqn:Hl; [|discriminate].
  intros Hr. apply flatten2_in_int64_inv.
  pose proof (reshape2_spec (length flat) flat (le_n _)) as Hs. rewrite Hr in Hs.
  destruct Hs as [_ ->]. unfold loadtxt in Hl.
  destruct (rows_of data) as [|r0 rows]; [injection Hl as <-; constructor|].
  destruct (forallb _ _); [|discriminate].
  clear Hr. revert flat Hl. generalize (concat (r0 :: rows)). intros toks.
  induction toks as [|t toks IH]; intros flat Hl; simpl in Hl.
  - injection Hl as <-. constructor.
  - destruct (parse_int64 t) as [z|] eqn:Ht; [|discriminate].
    destruct (map_opt parse_int64 toks) as [zs|]; [|discriminate].
    injection Hl as <-. constructor; [|apply IH; reflexivity].
    exact (parse_int64_range t z Ht).
Qed.

Lemma sys_step_files_valid (cfg : config) (s s' : sys) :
  sys_step cfg s s' -> maxsize (q (sst s)) = 0 ->
  files_valid (sst s) -> files_valid (sst s').
Proof.
  intros Hs Hmax Hv. destruct Hs as [pc st pc' st' r Hm|pc u line st st' Hl|pc u line st e st' Hl|pc exc st|pc r st];
    cbn [sst] in *.
  - pose proof (main_step_shape cfg pc st) as Hsh. rewrite Hm in Hsh.
    destruct Hsh as (_ & _ & [t Ht] & _). apply (files_valid_grow st st' t Hv); [|exact Ht].
    change st' with (snd (pc', st')). rewrite <- Hm. apply main_step_files.
  - destruct (handle_line_cases cfg u line st) as [[m Hc]|[Hc|[[e Hc]|(payload & arr & Hd & Hc)]]];
      rewrite Hl in Hc.
    + injection Hc as ->. exact (files_valid_grow st (print m st) [EvPrint m] Hv eq_refl eq_refl).
    + injection Hc as ->. exact Hv.
    + discriminate.
    + destruct (onData_ok cfg u payload st arr Hd Hmax) as (st'' & Hon & Hf & _ & Ht & _).
      rewrite <- Hc in Hon. injection Hon as <-.
      intros p text Hp. rewrite Hf in Hp. apply lookup_insert_Some in Hp as [[<- <-]|[_ Hp]].
      * exists arr. split; [reflexivity|split; [exact (decode_payload_in_int64 _ _ Hd)|]].
        rewrite Ht. apply in_or_app. right. left. reflexivity.
      * destruct (Hv p text Hp) as (arr' & H1 & H2 & H3). exists arr'.
        rewrite Ht. split; [exact H1|split; [exact H2|apply in_app_grow, H3]].
  - rewrite (handle_line_raise_same cfg u line st st' e Hl).
    destruct (connection_lost_fields (Some e) st) as (Hf & _ & _ & [t Ht]).
    exact (files_valid_grow st _ t Hv Hf Ht).
  - destruct (connection_lost_fields exc st) as (Hf & _ & _ & [t Ht]).
    exact (files_valid_grow st _ t Hv Hf Ht).
  - exact (files_valid_grow st (signal_handler st) [EvPrint "Cleaning up..."] Hv eq_refl eq_refl).
Qed.

Lemma sys_steps_files_valid (cfg : config) (s s' : sys) :
  sys_steps cfg s s' -> maxsize (q (sst s)) = 0 ->
  files_valid (sst s) -> files_valid (sst s').
Proof.
  induction 1 as [s|s1 s2 s3 H12 H23 IH]; intros Hmax Hv; [exact Hv|].
  apply IH; [rewrite (sys_step_maxsize cfg _ _ H12); exact Hmax|].
  exact (sys_step_files_valid cfg _ _ H12 Hmax Hv).
Qed.



Lemma no_queue_events_app (t t' : list event) :
  forallb (fun e => negb (queue_event e)) (t ++ t')%list =
  forallb (fun e => negb (queue_event e)) t && forallb (fun e => negb (queue_event e)) t'.
Proof. apply forallb_app. Qed.

Lemma sys_step_no_queue (cfg : config) (s s' : sys) :
  show_signal cfg = false -> sys_step cfg s s' -> maxsize (q (sst s)) = 0 ->
  items (q (sst s)) = [] /\ forallb (fun e => negb (queue_event e)) (trace (sst s)) = true ->
  items (q (sst s')) = [] /\ forallb (fun e => negb (queue_event e)) (trace (sst s')) = true.
Proof.
  intros Hshow Hs Hmax [Hq Ht]. destruct Hs as [pc st pc' st' r Hm|pc u line st st' Hl|pc u line st e st' Hl|pc exc st|pc r st];
    cbn [sst] in *.
  - change st' with (snd (pc', st')). rewrite <- Hm, main_step_empty by exact Hq. auto.
  - destruct (handle_line_cases cfg u line st) as [[m Hc]|[Hc|[[e Hc]|(payload & arr & Hd & Hc)]]];
      rewrite Hl in Hc.
    + injection Hc as ->. simpl. rewrite no_queue_events_app, Ht. auto.
    + injection Hc as ->. auto.
    + discriminate.
    + destruct (onData_ok cfg u payload st arr Hd Hmax) as (st'' & Hon & _ & Hq' & Ht' & _).
      rewrite <- Hc in Hon. injection Hon as <-. rewrite Hshow in Hq', Ht'.
      rewrite Hq', Ht', no_queue_events_app, Ht. auto.
  - rewrite (handle_line_raise_same cfg u line st st' e Hl). simpl.
    rewrite !no_queue_events_app, Ht. auto.
  - destruct exc; simpl; rewrite !no_queue_events_app, Ht; auto.
  - simpl. rewrite no_queue_events_app, Ht. auto.
Qed.

(** X1: a line ["LOG " ++ msg] prints ["ARDUINO " ++ msg], whatever [msg]
    holds (spaces included); no file, queue entry or flag changes. *)
Theorem log_line_printed (cfg : config) (u msg : string) (st : state) :
  handle_line cfg u ("LOG " ++ msg) st = Normal (print ("ARDUINO " ++ msg) st).
Proof. apply (handle_line_tag cfg u "LOG" msg st). reflexivity. Qed.





(** X4: the file name keeps only the first 8 characters of the uuid: two
    captures whose uuids share them go to the same path, and the second
    [savetxt] replaces the first capture's file. *)
Theorem same_prefix_overwrites (cfg : config) (u1 u2 d1 d2 : string)
    (arr1 arr2 : capture) (st : state) :
  String.substring 0 8 u1 = String.substring 0 8 u2 ->
  decode_payload d1 = Some arr1 -> decode_payload d2 = Some arr2 -> maxsize (q st) = 0 ->
  exists st1 st2,
    handle_line cfg u1 ("DATA " ++ d1) st = Normal st1 /\
    handle_line cfg u2 ("DATA " ++ d2) st1 = Normal st2 /\
    files st2 = <[path_join (out_dir cfg) (capture_filename u1) := savetxt_text arr2]> (files st).
Proof.
  intros Hu H1 H2 Hmax.
  destruct (onData_ok cfg u1 d1 st arr1 H1 Hmax) as (st1 & Hon1 & Hf1 & Hq1 & _).
  assert (Hmax1 : maxsize (q st1) = 0)
    by (rewrite Hq1; destruct (show_signal cfg); [reflexivity|exact Hmax]).
  destruct (onData_ok cfg u2 d2 st1 arr2 H2 Hmax1) as (st2 & Hon2 & Hf2 & _).
  exists st1, st2. rewrite !handle_line_data. refine (conj Hon1 (conj Hon2 _)).
  rewrite Hf2, Hf1. unfold capture_filename. rewrite Hu. apply insert_insert_eq.
Qed.

Lemma same_prefix_overwrites_witness :
  exists st1 st2,
    handle_line cfg_show uuid0 ("DATA " ++ "0 1") init_state = Normal st1 /\
    handle_line cfg_show "1b4e28ba-0000-0000-0000-000000000000" ("DATA " ++ "5 0") st1
      = Normal st2 /\
    files st2 = <[path_join (out_dir cfg_show) (capture_filename uuid0) :=
                  savetxt_text [(5, 0)]]> (files init_state).
Proof.
  apply (same_prefix_overwrites cfg_show uuid0 "1b4e28ba-0000-0000-0000-000000000000"
           "0 1" "5 0" [(0, 1)] [(5, 0)] init_state); vm_compute; reflexivity.
Defined.

(** X5: while [done] is false, [n] rounds of the polling loop take the [n]
    oldest captures off the queue in FIFO order, render exactly those (in
    that order) when [--show-signal] was given and drop them silently
    otherwise; files and flag are untouched.  On an empty queue a round
    changes nothing. *)
Theorem main_loop_fifo (cfg : config) (n : nat) (st : state) :
  done st = false ->
  main_steps cfg (3 * n) MCheck st =
  (MCheck, mkState (files st) (mkQueue (maxsize (q st)) (skipn n (items (q st))))
             (trace st ++ (if show_signal cfg then map EvRender (firstn n (items (q st)))
                           else []))%list
             (done st)).
Proof.
  revert st. induction n as [|n IH]; intros [f [m its] t d] Hd; cbn [done] in Hd; subst d.
  - simpl. destruct (show_signal cfg); simpl; rewrite app_nil_r; reflexivity.
  - replace (3 * S n)%nat with (3 + 3 * n)%nat by lia. rewrite main_steps_add.
    destruct its as [|x xs].
    + change (main_steps cfg 3 MCheck (mkState f (mkQueue m []) t false))
        with (MCheck, mkState f (mkQueue m []) t false).
      cbv iota beta. rewrite IH by reflexivity. simpl. rewrite skipn_nil, firstn_nil. reflexivity.
    + destruct (show_signal cfg) eqn:Hs.
      * assert (H3 : main_steps cfg 3 MCheck (mkState f (mkQueue m (x :: xs)) t false) =
                     (MCheck, mkState f (mkQueue m xs) (t ++ [EvRender x])%list false))
          by (simpl; rewrite ?Hs; reflexivity).
        rewrite H3. cbv iota beta. rewrite IH by reflexivity. simpl.
        rewrite <- app_assoc. reflexivity.
      * assert (H3 : main_steps cfg 3 MCheck (mkState f (mkQueue m (x :: xs)) t false) =
                     (MCheck, mkState f (mkQueue m xs) t false))
          by (simpl; rewrite ?Hs; reflexivity).
        rewrite H3. cbv iota beta. rewrite IH by reflexivity. simpl. reflexivity.
Qed.

Lemma main_loop_fifo_witness :
  let st := mkState ∅ (mkQueue 0 [[(0, 1)]; [(5, 0)]; [(7, 1)]]) [] false in
  done st = false /\
  main_steps cfg_show (3 * 2) MCheck st =
  (MCheck, mkState (files st) (mkQueue (maxsize (q st)) (skipn 2 (items (q st))))
             (trace st ++ (if show_signal cfg_show
                           then map EvRender (firstn 2 (items (q st))) else []))%list
             (done st)).
Proof.
  intros st. split; [reflexivity|]. apply main_loop_fifo. reflexivity.
Defined.



(** X7: once pyserial's reader has stopped (after an exception or a lost
    connection), it is never restarted and no file is written any more,
    whatever the main thread and signals do. *)
Theorem stopped_reader_writes_nothing (cfg : config) (s s' : sys) :
  sys_steps cfg s s' -> reading s = false ->
  reading s' = false /\ files (sst s') = files (sst s).
Proof.
  induction 1 as [s|s1 s2 s3 H12 H23 IH]; intros Hr; [split; [exact Hr|reflexivity]|].
  destruct (sys_step_stopped cfg _ _ H12 Hr) as [Hr2 Hf2].
  destruct (IH Hr2) as [Hr3 Hf3]. split; [exact Hr3|]. rewrite Hf3. exact Hf2.
Qed.

Lemma stopped_reader_writes_nothing_witness :
  let s := mkSys MCheck false (connection_lost None init_state) in
  let s' := mkSys MCheck false (signal_handler (connection_lost None init_state)) in
  sys_steps cfg_show init_sys s /\
  reading s' = false /\ files (sst s') = files (sst s).
Proof.
  intros s s'. split; [apply rtc_once, (SysLost cfg_show MCheck None init_state)|].
  apply (stopped_reader_writes_nothing cfg_show s s'); [|reflexivity].
  apply rtc_once, SysSigint.
Defined.

(** X8: every file the process has written is a numpy text whose re-reading
    ([loadtxt] and [reshape((-1,2))]) gives back the capture the trace
    records as saved at that path. *)
Theorem written_files_reload (cfg : config) (s : sys) (p text : string) :
  sys_steps cfg init_sys s -> files (sst s) !! p = Some text ->
  exists arr, text = savetxt_text arr /\ decode_payload text = Some arr /\
    In (EvSave p arr) (trace (sst s)).
Proof.
  intros Hs Hp.
  assert (Hv : files_valid (sst s)).
  { apply (sys_steps_files_valid cfg _ _ Hs); [reflexivity|].
    intros p' text' H. discriminate H. }
  destruct (Hv p text Hp) as (arr & -> & Hr & Hin).
  exists arr. split; [reflexivity|split; [apply decode_payload_savetxt, Hr|exact Hin]].
Qed.

Lemma written_files_reload_witness :
  let st1 := match handle_line cfg_show uuid0 "DATA 0 1 100 0" init_state with
             | Normal st => st | _ => init_state end in
  files st1 !! "./1b4e28ba.csv" = Some (savetxt_text [(0, 1); (100, 0)]) /\
  exists arr, savetxt_text [(0, 1); (100, 0)] = savetxt_text arr /\
    decode_payload (savetxt_text [(0, 1); (100, 0)]) = Some arr /\
    In (EvSave "./1b4e28ba.csv" arr) (trace (sst (mkSys MCheck true st1))).
Proof.
  intros st1.
  assert (Hp : files st1 !! "./1b4e28ba.csv" = Some (savetxt_text [(0, 1); (100, 0)]))
    by (vm_compute; reflexivity).
  split; [exact Hp|].
  apply (written_files_reload cfg_show (mkSys MCheck true st1)); [|exact Hp].
  apply rtc_once. apply (SysLine cfg_show MCheck uuid0 "DATA 0 1 100 0"). vm_compute. reflexivity.
Defined.

(** X9: without [--show-signal] the display queue stays empty in every
    reachable state: nothing is ever put on it and nothing is rendered. *)
Theorem no_show_signal_never_queues (cfg : config) (s : sys) :
  show_signal cfg = false -> sys_steps cfg init_sys s ->
  items (q (sst s)) = [] /\
  (forall x, ~ In (EvPut x) (trace (sst s))) /\ (forall x, ~ In (EvRender x) (trace (sst s))).
Proof.
  intros Hshow Hs.
  assert (Hinv : forall s0 s1, sys_steps cfg s0 s1 -> maxsize (q (sst s0)) = 0 ->
            items (q (sst s0)) = [] /\ forallb (fun e => negb (queue_event e)) (trace (sst s0)) = true ->
            items (q (sst s1)) = [] /\ forallb (fun e => negb (queue_event e)) (trace (sst s1)) = true).
  { induction 1 as [s0|s0 s1 s2 H01 H12 IH]; intros Hmax H; [exact H|].
    apply IH; [rewrite (sys_step_maxsize cfg _ _ H01); exact Hmax|].
    exact (sys_step_no_queue cfg _ _ Hshow H01 Hmax H). }
  destruct (Hinv _ _ Hs eq_refl (conj eq_refl eq_refl)) as [Hq Ht].
  rewrite forallb_forall in Ht.
  split; [exact Hq|split; intros x Hx; specialize (Ht _ Hx); discriminate Ht].
Qed.

Lemma no_show_signal_never_queues_witness :
  let st1 := match handle_line cfg_noshow uuid0 "DATA 0 1 100 0" init_state with
             | Normal st => st | _ => init_state end in
  items (q (sst (mkSys MCheck true st1))) = [] /\
  (forall x, ~ In (EvPut x) (trace (sst (mkSys MCheck true st1)))) /\
  (forall x, ~ In (EvRender x) (trace (sst (mkSys MCheck true st1)))).
Proof.
  intros st1. apply (no_show_signal_never_queues cfg_noshow); [reflexivity|].
  apply rtc_once. apply (SysLine cfg_noshow MCheck uuid0 "DATA 0 1 100 0"). vm_compute. reflexivity.
Defined.
